(** * go-utils: HTML accessors, the console extractor and the Google
      search

    Go strings are byte strings; they are modelled as [string] (one [ascii]
    per byte).  A [*html.Node] is a value of [Html.Node], whose constructor
    [Nil] is Go's nil pointer.  The first part of the file holds the
    definitions, package by package; the second part holds the lemmas and
    theorems. *)

From Stdlib Require Import ZArith Ascii.
From stdpp Require Import base gmap strings list pretty.

Local Open Scope Z_scope.
Local Open Scope nat_scope.

(* ===================================================================== *)
(** * Part I: definitions *)
(* ===================================================================== *)

(** ** Byte strings ([strings] of the Go standard library) *)

Module Str.

Definition nl : string := String "010"%char "".
Definition tab : string := String "009"%char "".

(** [strings.HasPrefix] followed by [strings.TrimPrefix]: the rest of [s]
    after the prefix [p], when [s] starts with [p]. *)
Fixpoint CutPrefix (p s : string) : option string :=
  match p with
  | "" => Some s
  | String a p' =>
      match s with
      | "" => None
      | String b s' => if Ascii.eqb a b then CutPrefix p' s' else None
      end
  end.

(** [strings.HasPrefix]. *)
Definition HasPrefix (s p : string) : bool :=
  match CutPrefix p s with Some _ => true | None => false end.

(** No byte of [s] is white space. *)
Fixpoint nospace (s : string) : bool :=
  match s with
  | "" => true
  | String c r => negb (Ascii.is_space c) && nospace r
  end.

Definition consField (t : string) (ts : list string) : list string :=
  match t with "" => ts | _ => t :: ts end.

(** [FieldsGo s] is the run of non-space bytes [s] starts with (empty when
    [s] starts with white space) and the runs after it. *)
Fixpoint FieldsGo (s : string) : string * list string :=
  match s with
  | "" => ("", [])
  | String c r =>
      let '(t, ts) := FieldsGo r in
      if Ascii.is_space c then ("", consField t ts) else (String c t, ts)
  end.

(** [strings.Fields] on a byte string: the maximal runs of bytes that are
    not white space (tab, line feed, vertical tab, form feed, carriage
    return, space), in order. *)
Definition Fields (s : string) : list string :=
  let '(t, ts) := FieldsGo s in consField t ts.

(** [s] is empty or ends with a white-space byte. *)
Definition endsAtGap (s : string) : Prop :=
  s = "" ∨ ∃ s' w, s = s' +:+ String w "" ∧ Ascii.is_space w = true.

(** [s] is empty or starts with a white-space byte. *)
Definition startsAtGap (s : string) : Prop :=
  s = "" ∨ ∃ w s', s = String w s' ∧ Ascii.is_space w = true.

(** [t] occurs in [s] as a complete white-space separated token: it is not
    empty, holds no white space, and is delimited on each side by white
    space or by an end of [s]. *)
Definition isToken (t s : string) : Prop :=
  t ≠ "" ∧ nospace t = true ∧
  ∃ l r, s = l +:+ t +:+ r ∧ endsAtGap l ∧ startsAtGap r.

(** [needle] occurs somewhere in [s] ([strings.Contains]). *)
Fixpoint Contains (s needle : string) : bool :=
  match CutPrefix needle s with
  | Some _ => true
  | None => match s with "" => false | String _ r => Contains r needle end
  end.

(** The lines of a text: every line ends at a line feed; a last line
    without line feed counts when it is not empty. *)
Fixpoint LinesGo (cur : string) (s : string) : list string :=
  match s with
  | "" => consField (String.rev cur) []
  | String c r =>
      if Ascii.eqb c "010" then String.rev cur :: LinesGo "" r
      else LinesGo (String c cur) r
  end.

Definition Lines (s : string) : list string := LinesGo "" s.

Fixpoint concat (l : list string) : string :=
  match l with [] => "" | s :: r => s +:+ concat r end.

End Str.

(** ** [golang.org/x/net/html]: the node type the packages work on *)

Module Html.

Inductive NodeType : Type :=
  | ErrorNode | TextNode | DocumentNode | ElementNode
  | CommentNode | DoctypeNode | RawNode.

Record Attribute : Type := mkAttribute { Key : string; Val : string }.

(** [*html.Node].  The fields the packages read are kept: [Parent],
    [FirstChild], [NextSibling], [Type], [Data] and [Attr].  A node built
    with [Parent] alone (as the tests do) is a chain going up; a node built
    with [FirstChild] and [NextSibling] is a tree going down. *)
Inductive Node : Type :=
  | Nil
  | mkNode (parent firstChild nextSibling : Node)
           (type : NodeType) (data : string) (attrs : list Attribute).

Definition FirstChild (n : Node) : Node :=
  match n with Nil => Nil | mkNode _ c _ _ _ _ => c end.
Definition NextSibling (n : Node) : Node :=
  match n with Nil => Nil | mkNode _ _ s _ _ _ => s end.
Definition Type_ (n : Node) : NodeType :=
  match n with Nil => ErrorNode | mkNode _ _ _ t _ _ => t end.
Definition Data (n : Node) : string :=
  match n with Nil => "" | mkNode _ _ _ _ d _ => d end.
Definition Attr (n : Node) : list Attribute :=
  match n with Nil => [] | mkNode _ _ _ _ _ a => a end.

(** The value of the first attribute named [name], if there is one. *)
Fixpoint lookupAttr (attrs : list Attribute) (name : string) : option string :=
  match attrs with
  | [] => None
  | a :: rest =>
      if String.eqb (Key a) name then Some (Val a) else lookupAttr rest name
  end.

Definition isNil (n : Node) : bool :=
  match n with Nil => true | _ => false end.

Definition isElement (n : Node) : bool :=
  match Type_ n with ElementNode => true | _ => false end.

(** An element with one of the given tag names. *)
Definition hasTag (tags : list string) (n : Node) : bool :=
  isElement n && existsb (String.eqb (Data n)) tags.

(** [n], its descendants, then its following siblings and theirs, in
    document order: the nodes a loop
    [for c := n; c != nil; c = c.NextSibling] reaches, with their
    subtrees. *)
Fixpoint subtrees (n : Node) : list Node :=
  match n with
  | Nil => []
  | mkNode _ fc ns _ _ _ => n :: subtrees fc ++ subtrees ns
  end.

Definition descendants (n : Node) : list Node := subtrees (FirstChild n).

(** The children of [n], in document order. *)
Fixpoint siblings (n : Node) : list Node :=
  match n with
  | Nil => []
  | mkNode _ _ ns _ _ _ => n :: siblings ns
  end.

Definition children (n : Node) : list Node := siblings (FirstChild n).

(** The text of [n] and of the nodes after it (see [subtrees]). *)
Fixpoint textFrom (n : Node) : string :=
  match n with
  | Nil => ""
  | mkNode _ fc ns t d _ =>
      (match t with TextNode => d | _ => "" end)
        +:+ textFrom fc +:+ textFrom ns
  end.

(** The text content of one node: its own data when it is a text node,
    then the text of its descendants. *)
Definition nodeText (n : Node) : string :=
  (match Type_ n with TextNode => Data n | _ => "" end)
    +:+ textFrom (FirstChild n).

Definition isText (n : Node) : bool :=
  match Type_ n with TextNode => true | _ => false end.

End Html.

(** ** Package [markdown]

    Of this package only the test file is among the sources; the tree
    accessors it tests are modelled from the specification of the
    package, on the node type and with the inputs the tests build. *)

Module Markdown.
Import Html.

(** *** Tree accessors *)

(** Modelled from the spec: [attr] is missing from the sources.
    "returns the attribute value or empty string if absent or if node has
    no attributes.  Never fails."  A nil node has no attributes. *)
Definition attr (node : Node) (name : string) : string :=
  default "" (lookupAttr (Attr node) name).

(** Modelled from the spec: [hasClass] is missing from the sources.
    "true iff name appears as a whitespace-separated token in the node's
    class attribute", the tokens being split "on arbitrary runs of
    whitespace". *)
Definition hasClass (node : Node) (name : string) : bool :=
  existsb (String.eqb name) (Str.Fields (attr node "class")).

(** [hasAncestor p name]: [p] or a node above it has the tag [name]. *)
Fixpoint hasAncestor (p : Node) (name : string) : bool :=
  match p with
  | Nil => false
  | mkNode up _ _ _ d _ => String.eqb d name || hasAncestor up name
  end.

(** Modelled from the spec: [isChildOf] is missing from the sources.
    "walks the parent chain starting at node's parent upward; returns
    true if any ancestor's tag equals ancestor_tag.  Returns false if node
    is nil/absent or has no matching ancestor, including when node itself
    has the tag (only ancestors count, not self)." *)
Definition isChildOf (node : Node) (name : string) : bool :=
  match node with
  | Nil => false
  | mkNode up _ _ _ _ _ => hasAncestor up name
  end.


(** The first class that starts with "language-", without that prefix. *)
Fixpoint firstLanguage (classes : list string) : string :=
  match classes with
  | [] => ""
  | c :: rest =>
      match Str.CutPrefix "language-" c with
      | Some lang => lang
      | None => firstLanguage rest
      end
  end.

(** The first node for which [p] holds among [n] and its next siblings. *)
Fixpoint findSibling (p : Node → bool) (n : Node) : Node :=
  match n with
  | Nil => Nil
  | mkNode _ _ ns _ _ _ => if p n then n else findSibling p ns
  end.

(** The first child element of [pre] with tag "code" ([Nil] without). *)
Definition codeChild (pre : Node) : Node :=
  findSibling (hasTag ["code"]) (FirstChild pre).



(** Modelled from the spec: [langFromClass] is missing from the sources.
    "locates the first child element with tag code (or checks pre_node
    itself), reads its class attribute, and returns the suffix of the
    first token matching pattern language-<X>; returns empty string if no
    such token exists."  Both nodes are read: the classes of the node
    itself (where the test puts them), then those of the code child; the
    spec does not say which of the two wins when both carry such a
    class. *)
Definition langFromClass (pre : Node) : string :=
  firstLanguage (Str.Fields (attr pre "class")
                 ++ Str.Fields (attr (codeChild pre) "class")).

(** *** The tests of the accessors, from
    [markdown/convert_html_to_markdown_test.go]

    A test is the list of the messages it reports with [t.Error]; it
    passes when the list is empty.  [TestIsChildOf] takes the function
    under test as an argument. *)

Definition expect (ok : bool) (message : string) : list string :=
  if ok then [] else [message].

Definition divNode : Node := mkNode Nil Nil Nil ErrorNode "div" [].
Definition spanNode : Node := mkNode divNode Nil Nil ErrorNode "span" [].
Definition pNode : Node := mkNode spanNode Nil Nil ErrorNode "p" [].

Definition TestIsChildOf (isChildOf : Node → string → bool) : list string :=
  expect (isChildOf pNode "span") "pNode should be a child of spanNode"
  ++ expect (negb (isChildOf pNode "div"))
       "pNode should not be a direct child of divNode"
  ++ expect (isChildOf spanNode "div") "spanNode should be a child of divNode".

Definition TestHasClass : list string :=
  let node := mkNode Nil Nil Nil ErrorNode ""
                [mkAttribute "class" "class1 class2"] in
  expect (hasClass node "class1") "Node should have class1"
  ++ expect (hasClass node "class2") "Node should have class2"
  ++ expect (negb (hasClass node "class3")) "Node should not have class3".

Definition TestAttr : list string :=
  let node := mkNode Nil Nil Nil ErrorNode ""
                [mkAttribute "class" "myclass"; mkAttribute "id" "myid"] in
  expect (String.eqb (attr node "class") "myclass")
    "Node should have class as myclass"
  ++ expect (String.eqb (attr node "id") "myid") "Node should have id as myid"
  ++ expect (String.eqb (attr node "style") "")
       "Node should not have style attribute".

(** The pre node of [TestLangFromClass] with the class attribute the test
    assigns to it. *)
Definition preNode (class : string) : Node :=
  let codeNode := mkNode Nil Nil Nil ErrorNode "code" [] in
  mkNode Nil codeNode Nil ErrorNode "pre" [mkAttribute "class" class].



Definition TestLangFromClass : list string :=
  expect (String.eqb (langFromClass (preNode "language-golang")) "golang")
    "Expected golang"
  ++ expect (String.eqb
               (langFromClass (preNode "other-class language-python")) "python")
       "Expected python"
  ++ expect (String.eqb (langFromClass (preNode "other-class")) "")
       "Expected an empty string".

End Markdown.

(** ** Package [store]: [TraverseAndExtract] *)

Module Store.
Import Html.

(** A [*goquery.Selection]: the nodes it holds, in order.  (goquery drops
    duplicate nodes from the result of [Find]; the matches below one node
    have none.) *)
Definition Selection : Type := list Node.

(** [goquery.NodeName]: the name of the first node of the selection. *)
Definition nodeName (n : Node) : string :=
  match n with
  | Nil => ""
  | mkNode _ _ _ t d _ =>
      match t with
      | ElementNode | DoctypeNode => d
      | ErrorNode => "#error"
      | TextNode => "#text"
      | DocumentNode => "#document"
      | CommentNode => "#comment"
      | RawNode => ""
      end
  end.

Definition NodeName (s : Selection) : string :=
  match s with
  | [] => ""
  | n :: _ => nodeName n
  end.

(** [s.Attr(attrName)]: the value of the attribute of the first node, and
    whether it exists. *)
Definition SelectionAttr (s : Selection) (attrName : string) : string * bool :=
  match s with
  | [] => ("", false)
  | n :: _ =>
      match lookupAttr (Attr n) attrName with
      | Some val => (val, true)
      | None => ("", false)
      end
  end.

(** [s.Text()]: the text of every node of the selection and of its
    descendants. *)
Definition SelectionText (s : Selection) : string :=
  Str.concat (map nodeText s).

(** The matches of a selector below [n], in document order: every element
    child of [n] is searched, itself included. *)
Definition findIn (matches : Node → bool) (n : Node) : list Node :=
  flat_map
    (λ c, if isElement c
          then filter (λ d, matches d = true) (c :: descendants c)
          else [])
    (children n).

(** [s.Find(selector)] for a selector that is a tag name or a group of
    tag names. *)
Definition Find (tags : list string) (s : Selection) : Selection :=
  flat_map (findIn (hasTag tags)) s.

(** [s.Each(f)]: [f] is called on the index and on a selection holding
    one node, for every node in order; [acc] is what the callback
    updates. *)
Fixpoint EachFrom {A : Type} (i : nat) (s : Selection)
    (f : nat → Selection → A → A) (acc : A) : A :=
  match s with
  | [] => acc
  | n :: rest => EachFrom (S i) rest f (f i [n] acc)
  end.

Definition Each {A : Type} (s : Selection) (f : nat → Selection → A → A)
    (acc : A) : A :=
  EachFrom 0 s f acc.

(** [fmt.Println] on strings: the operands separated by a space, then a
    line feed. *)
Definition Println (operands : list string) : string :=
  String.concat " " operands +:+ Str.nl.

Definition oneOf (name : string) (names : list string) : bool :=
  existsb (String.eqb name) names.

(** [TraverseAndExtract]; the result is the text the call prints on the
    standard output. *)
Definition TraverseAndExtract (s : Selection) : string :=
  let nodeName := NodeName s in
  if oneOf nodeName
       ["header"; "footer"; "nav"; "aside"; "comments"; "script"; "style"]
  then ""
  else if oneOf nodeName
            ["h1"; "h2"; "h3"; "h4"; "h5"; "h6"; "p"; "li"; "td"; "span";
             "blockquote"; "pre"]
  then Println [nodeName; ": "; SelectionText s]
  else if String.eqb nodeName "a" then
    let '(href, _) := SelectionAttr s "href" in
    Println [nodeName; ": "; href]
  else if String.eqb nodeName "img" then
    let '(src, exists_) := SelectionAttr s "src" in
    let src := if negb exists_ then fst (SelectionAttr s "data-src") else src in
    Println [nodeName; ": "; src]
  else if String.eqb nodeName "table" then
    Each (Find ["tr"] s)
      (λ i tr stdout,
         let cells :=
           Each (Find ["th"; "td"] tr)
             (λ j cell cells, cells +:+ SelectionText cell +:+ Str.tab) "" in
         stdout +:+ Println ["table row: "; cells])
      ""
  else if String.eqb nodeName "meta" then
    let '(name, exists_) := SelectionAttr s "name" in
    if exists_ && String.eqb name "author" then
      let '(content, _) := SelectionAttr s "content" in
      Println ["Author: "; content]
    else ""
  else "".

(** The line printed for one row of a table: the text of each of its
    cells followed by a tab. *)
Definition rowLine (tr : Node) : string :=
  Println ["table row: ";
           Str.concat
             (map (λ cell, nodeText cell +:+ Str.tab)
                (findIn (hasTag ["th"; "td"]) tr))].

(** A line of the output is a header-separator row when it holds three
    dashes. *)
Definition isSeparatorRow (line : string) : bool := Str.Contains line "---".

Definition text (data : string) (next : Node) : Node :=
  mkNode Nil Nil next TextNode data [].

Definition element (tag : string) (attrs : list Attribute)
    (firstChild next : Node) : Node :=
  mkNode Nil firstChild next ElementNode tag attrs.

(** <table><tr><th>Name</th><th>Age</th></tr><tr><td>Ann</td><td>31</td></tr>
    <tr><td>Bob</td><td>27</td></tr></table>: one header row and two data
    rows. *)
Definition sampleTable : Node :=
  element "table" []
    (element "tr" []
       (element "th" [] (text "Name" Nil) (element "th" [] (text "Age" Nil) Nil))
    (element "tr" []
       (element "td" [] (text "Ann" Nil) (element "td" [] (text "31" Nil) Nil))
    (element "tr" []
       (element "td" [] (text "Bob" Nil) (element "td" [] (text "27" Nil) Nil))
     Nil)))
    Nil.

(** <img alt="logo">: an image with neither src nor data-src. *)
Definition sampleImage : Node :=
  element "img" [mkAttribute "alt" "logo"] Nil Nil.

(** The tag names [TraverseAndExtract] returns on at once, those whose
    text it prints, and all those it prints anything for. *)
Definition ignoredTags : list string :=
  ["header"; "footer"; "nav"; "aside"; "comments"; "script"; "style"].

Definition textTags : list string :=
  ["h1"; "h2"; "h3"; "h4"; "h5"; "h6"; "p"; "li"; "td"; "span";
   "blockquote"; "pre"].

Definition printedTags : list string :=
  textTags ++ ["a"; "img"; "table"; "meta"].

End Store.

(** ** Package [search] *)

Module Search.

Definition error : Type := string.

Definition stdGoogleBase : string := "https://www.google.".

Definition GoogleDomains : gmap string string := list_to_map [
  ("us", "com/search?q="); ("ac", "ac/search?q="); ("ad", "ad/search?q=");
  ("ae", "ae/search?q="); ("af", "com.af/search?q=");
  ("ag", "com.ag/search?q="); ("ai", "com.ai/search?q=");
  ("al", "al/search?q="); ("am", "am/search?q="); ("ao", "co.ao/search?q=");
  ("ar", "com.ar/search?q="); ("as", "as/search?q="); ("at", "at/search?q=");
  ("au", "com.au/search?q="); ("az", "az/search?q="); ("ba", "ba/search?q=");
  ("bd", "com.bd/search?q="); ("be", "be/search?q="); ("bf", "bf/search?q=");
  ("bg", "bg/search?q="); ("bh", "com.bh/search?q="); ("bi", "bi/search?q=");
  ("bj", "bj/search?q="); ("bn", "com.bn/search?q=");
  ("bo", "com.bo/search?q="); ("br", "com.br/search?q=");
  ("bs", "bs/search?q="); ("bt", "bt/search?q="); ("bw", "co.bw/search?q=");
  ("by", "by/search?q="); ("bz", "com.bz/search?q="); ("ca", "ca/search?q=");
  ("kh", "com.kh/search?q="); ("cc", "cc/search?q="); ("cd", "cd/search?q=");
  ("cf", "cf/search?q="); ("cat", "cat/search?q="); ("cg", "cg/search?q=");
  ("ch", "ch/search?q="); ("ci", "ci/search?q="); ("ck", "co.ck/search?q=");
  ("cl", "cl/search?q="); ("cm", "cm/search?q="); ("cn", "cn/search?q=");
  ("co", "com.co/search?q="); ("cr", "co.cr/search?q=");
  ("cu", "com.cu/search?q="); ("cv", "cv/search?q=");
  ("cy", "com.cy/search?q="); ("cz", "cz/search?q="); ("de", "de/search?q=");
  ("dj", "dj/search?q="); ("dk", "dk/search?q="); ("dm", "dm/search?q=");
  ("do", "com.do/search?q="); ("dz", "dz/search?q=");
  ("ec", "com.ec/search?q="); ("ee", "ee/search?q=");
  ("eg", "com.eg/search?q="); ("es", "es/search?q=");
  ("et", "com.et/search?q="); ("fi", "fi/search?q=");
  ("fj", "com.fj/search?q="); ("fm", "fm/search?q="); ("fr", "fr/search?q=");
  ("ga", "ga/search?q="); ("gb", "co.uk/search?q="); ("ge", "ge/search?q=");
  ("gf", "gf/search?q="); ("gg", "gg/search?q="); ("gh", "com.gh/search?q=");
  ("gi", "com.gi/search?q="); ("gl", "gl/search?q="); ("gm", "gm/search?q=");
  ("gp", "gp/search?q="); ("gr", "gr/search?q="); ("gt", "com.gt/search?q=");
  ("gy", "gy/search?q="); ("hk", "com.hk/search?q="); ("hn", "hn/search?q=");
  ("hr", "hr/search?q="); ("ht", "ht/search?q="); ("hu", "hu/search?q=");
  ("id", "co.id/search?q="); ("iq", "iq/search?q="); ("ie", "ie/search?q=");
  ("il", "co.il/search?q="); ("im", "im/search?q=");
  ("in", "co.in/search?q="); ("io", "io/search?q="); ("is", "is/search?q=");
  ("it", "it/search?q="); ("je", "je/search?q="); ("jm", "com.jm/search?q=");
  ("jo", "jo/search?q="); ("jp", "co.jp/search?q=");
  ("ke", "co.ke/search?q="); ("ki", "ki/search?q="); ("kg", "kg/search?q=");
  ("kr", "co.kr/search?q="); ("kw", "com.kw/search?q=");
  ("kz", "kz/search?q="); ("la", "la/search?q="); ("lb", "com.lb/search?q=");
  ("lc", "com.lc/search?q="); ("li", "li/search?q="); ("lk", "lk/search?q=");
  ("ls", "co.ls/search?q="); ("lt", "lt/search?q="); ("lu", "lu/search?q=");
  ("lv", "lv/search?q="); ("ly", "com.ly/search?q=");
  ("ma", "co.ma/search?q="); ("md", "md/search?q="); ("me", "me/search?q=");
  ("mg", "mg/search?q="); ("mk", "mk/search?q="); ("ml", "ml/search?q=");
  ("mm", "com.mm/search?q="); ("mn", "mn/search?q="); ("ms", "ms/search?q=");
  ("mt", "com.mt/search?q="); ("mu", "mu/search?q="); ("mv", "mv/search?q=");
  ("mw", "mw/search?q="); ("mx", "com.mx/search?q=");
  ("my", "com.my/search?q="); ("mz", "co.mz/search?q=");
  ("na", "com.na/search?q="); ("ne", "ne/search?q=");
  ("nf", "com.nf/search?q="); ("ng", "com.ng/search?q=");
  ("ni", "com.ni/search?q="); ("nl", "nl/search?q="); ("no", "no/search?q=");
  ("np", "com.np/search?q="); ("nr", "nr/search?q="); ("nu", "nu/search?q=");
  ("nz", "co.nz/search?q="); ("om", "com.om/search?q=");
  ("pa", "com.pa/search?q="); ("pe", "com.pe/search?q=");
  ("ph", "com.ph/search?q="); ("pk", "com.pk/search?q=");
  ("pl", "pl/search?q="); ("pg", "com.pg/search?q="); ("pn", "pn/search?q=");
  ("pr", "com.pr/search?q="); ("ps", "ps/search?q="); ("pt", "pt/search?q=");
  ("py", "com.py/search?q="); ("qa", "com.qa/search?q=");
  ("ro", "ro/search?q="); ("rs", "rs/search?q="); ("ru", "ru/search?q=");
  ("rw", "rw/search?q="); ("sa", "com.sa/search?q=");
  ("sb", "com.sb/search?q="); ("sc", "sc/search?q="); ("se", "se/search?q=");
  ("sg", "com.sg/search?q="); ("sh", "sh/search?q="); ("si", "si/search?q=");
  ("sk", "sk/search?q="); ("sl", "com.sl/search?q="); ("sn", "sn/search?q=");
  ("sm", "sm/search?q="); ("so", "so/search?q="); ("st", "st/search?q=");
  ("sv", "com.sv/search?q="); ("td", "td/search?q="); ("tg", "tg/search?q=");
  ("th", "co.th/search?q="); ("tj", "com.tj/search?q=");
  ("tk", "tk/search?q="); ("tl", "tl/search?q="); ("tm", "tm/search?q=");
  ("to", "to/search?q="); ("tn", "tn/search?q="); ("tr", "com.tr/search?q=");
  ("tt", "tt/search?q="); ("tw", "com.tw/search?q=");
  ("tz", "co.tz/search?q="); ("ua", "com.ua/search?q=");
  ("ug", "co.ug/search?q="); ("uk", "co.uk/search?q=");
  ("uy", "com.uy/search?q="); ("uz", "co.uz/search?q=");
  ("vc", "com.vc/search?q="); ("ve", "co.ve/search?q=");
  ("vg", "vg/search?q="); ("vi", "co.vi/search?q=");
  ("vn", "com.vn/search?q="); ("vu", "vu/search?q="); ("ws", "ws/search?q=");
  ("za", "co.za/search?q="); ("zm", "co.zm/search?q=");
  ("zw", "co.zw/search?q=")
].

Record SearchOptions : Type := mkSearchOptions {
  CountryCode : string;
  LanguageCode : string;
  Limit : Z;
  Start : Z;
  UserAgent : string;
  OverLimit : bool;
  ProxyAddr : string
}.

(** The zero value [SearchOptions{}]. *)
Definition noOptions : SearchOptions := mkSearchOptions "" "" 0 0 "" false "".

Definition byte (c : ascii) : N := N_of_ascii c.

Definition isAlnum (c : ascii) : bool :=
  ((byte "a" <=? byte c) && (byte c <=? byte "z")
   || (byte "A" <=? byte c) && (byte c <=? byte "Z")
   || (byte "0" <=? byte c) && (byte c <=? byte "9"))%N.

(** [shouldEscape(c, encodeQueryComponent)] of [net/url]: everything is
    escaped but letters, digits and the four marks. *)
Definition shouldEscape (c : ascii) : bool :=
  if isAlnum c then false
  else if existsb (Ascii.eqb c) ["-"; "_"; "."; "~"]%char then false
  else true.

Definition upperhex (k : N) : ascii :=
  default "0"%char (String.get (N.to_nat k) "0123456789ABCDEF").

(** [url.QueryEscape]. *)
Fixpoint QueryEscape (s : string) : string :=
  match s with
  | "" => ""
  | String c rest =>
      if shouldEscape c then
        if Ascii.eqb c " " then String "+" (QueryEscape rest)
        else String "%"
               (String (upperhex (N.shiftr (byte c) 4))
                  (String (upperhex (N.land (byte c) 15)) (QueryEscape rest)))
      else String c (QueryEscape rest)
  end.

Definition unhex (c : ascii) : option N :=
  (if (byte "0" <=? byte c) && (byte c <=? byte "9")
   then Some (byte c - byte "0")
   else if (byte "a" <=? byte c) && (byte c <=? byte "f")
   then Some (byte c - byte "a" + 10)
   else if (byte "A" <=? byte c) && (byte c <=? byte "F")
   then Some (byte c - byte "A" + 10)
   else None)%N.

(** [url.QueryUnescape]: [None] is the error of a malformed escape. *)
Fixpoint QueryUnescape (s : string) : option string :=
  match s with
  | "" => Some ""
  | String c rest =>
      if Ascii.eqb c "%" then
        match rest with
        | String a (String b rest') =>
            match unhex a, unhex b with
            | Some x, Some y =>
                String (ascii_of_N (N.lor (N.shiftl x 4) y))
                  <$> QueryUnescape rest'
            | _, _ => None
            end
        | _ => None
        end
      else if Ascii.eqb c "+" then String " " <$> QueryUnescape rest
      else String c <$> QueryUnescape rest
  end.

(** [strconv.Itoa]. *)
Definition Itoa (i : Z) : string := pretty i.

Definition getSearchURL (searchTerm : string) (opts : SearchOptions) : string :=
  let base := stdGoogleBase in
  let base :=
    match GoogleDomains !! CountryCode opts with
    | Some val => base +:+ val
    | None => base +:+ default "" (GoogleDomains !! "us")
    end in
  let query := QueryEscape searchTerm in
  base +:+ query +:+ "&hl=" +:+ LanguageCode opts
    +:+ "&start=" +:+ Itoa (Start opts).

(** The bytes [QueryEscape] lets through or produces. *)
Definition querySafe (c : ascii) : bool :=
  isAlnum c || existsb (Ascii.eqb c) ["-"; "_"; "."; "~"; "+"; "%"]%char.

Fixpoint allBytes (p : ascii → bool) (s : string) : bool :=
  match s with
  | "" => true
  | String c r => p c && allBytes p r
  end.

(** *** [SearchGoogle]

    The network, the rate limiter and the parsers of [net/url] and
    goquery are the world the function runs in.  A call returns the
    messages it logged (the logger puts the time in front of each) and
    how it ended. *)

Record Result : Type := mkResult {
  Rank : Z;
  URL : string;
  Title : string;
  Description : string
}.

Inductive Panic : Type := NilContext | NilURL.

Inductive Outcome (A : Type) : Type :=
  | Return (a : A)
  | Fail (err : error)
  | Panicked (p : Panic).
Arguments Return {A} a.
Arguments Fail {A} err.
Arguments Panicked {A} p.

Record url_URL : Type := mkURL { Host : string; Path : string }.

Record Request : Type := mkRequest {
  Method : string;
  RequestURL : string;
  HeaderUserAgent : string
}.

(** An [http.Client]: its transport is the default one, or one with the
    proxy [http.ProxyURL] was given (a nil URL when the address did not
    parse). *)
Record Client : Type := mkClient { Transport : option (option url_URL) }.

(** What the selectors of [parseResults] read from one ".g" element. *)
Record Hit : Type := mkHit {
  hitTitle : string;
  hitHref : string;
  hitDescription : string
}.

(** A response: its status and what [goquery.NewDocumentFromReader]
    makes of its body. *)
Record Response : Type := mkResponse {
  StatusCode : Z;
  Body : error + list Hit
}.

Section World.

(** The live (non-nil) values of [context.Context]. *)
Variable Context : Type.
Variable Background : Context.

(** [formatSelection] is the text [fmt] prints for the selection of the
    ".g" elements, a pointer to a structure of pointers: it depends on
    the addresses of the run. *)
Record World : Type := mkWorld {
  RateLimitWait : Context → option error;
  urlParse : string → error + url_URL;
  clientDo : Client → Request → error + Response;
  formatSelection : list Hit → string
}.

(** [RateLimit.Wait(ctx)]: the limiter calls [ctx.Done()], which panics
    on a nil context. *)
Definition Wait (world : World) (ctx : option Context) : Outcome unit :=
  match ctx with
  | None => Panicked NilContext
  | Some c =>
      match RateLimitWait world c with
      | Some err => Fail err
      | None => Return tt
      end
  end.

(** The callback of [s.Each] in [parseResults], over the elements left;
    [parsedLink.Host] panics when [url.Parse] failed. *)
Fixpoint eachHit (world : World) (rank : Z) (results : list Result)
    (hits : list Hit) : Outcome (list Result) :=
  match hits with
  | [] => Return results
  | el :: rest =>
      match urlParse world (hitHref el) with
      | inl _ => Panicked NilURL
      | inr parsedLink =>
          eachHit world (rank + 1)
            (results ++
               [mkResult rank ("http://" +:+ Host parsedLink +:+ Path parsedLink)
                  (hitTitle el) (hitDescription el)])
            rest
      end
  end.

Definition parseResults (world : World) (resp : Response)
    : list string * Outcome (list Result) :=
  match Body resp with
  | inl err => ([], Fail err)
  | inr hits =>
      (["extract s " +:+ formatSelection world hits], eachHit world 1 [] hits)
  end.

Definition defaultUserAgent : string :=
  "Mozilla/5.0 (Windows NT 10.0; Win64; x64) AppleWebKit/537.36 (KHTML, like Gecko) Chrome/61.0.3163.100 Safari/537.36".

Definition withUserAgent (opt : SearchOptions) (ua : string) : SearchOptions :=
  mkSearchOptions (CountryCode opt) (LanguageCode opt) (Limit opt) (Start opt)
    ua (OverLimit opt) (ProxyAddr opt).

(** [SearchGoogle] after its first statement, on the context that
    statement leaves. *)
Definition searchWith (world : World) (ctx : option Context)
    (searchTerm : string) (opts : list SearchOptions)
    : list string * Outcome (list Result) :=
  match Wait world ctx with
  | Panicked p => ([], Panicked p)
  | Fail err => ([], Fail err)
  | Return _ =>
      let opt := match opts with o :: _ => o | [] => noOptions end in
      let opt :=
        if String.eqb (UserAgent opt) "" then withUserAgent opt defaultUserAgent
        else opt in
      let url := getSearchURL searchTerm opt in
      match urlParse world url with
      | inl err => ([url], Fail err)
      | inr _ =>
          let req := mkRequest "GET" url (UserAgent opt) in
          let client :=
            if String.eqb (ProxyAddr opt) "" then mkClient None
            else mkClient
                   (Some (match urlParse world (ProxyAddr opt) with
                          | inr proxyUrl => Some proxyUrl
                          | inl _ => None
                          end)) in
          match clientDo world client req with
          | inl err => ([url], Fail err)
          | inr resp =>
              if (StatusCode resp =? 200)%Z then
                match parseResults world resp with
                | (logs, Fail err) =>
                    (url :: logs ++ ["Error parsing results"], Fail err)
                | (logs, end_) => (url :: logs, end_)
                end
              else
                ([url; "Received non-200 response code"],
                 Fail ("Received non-200 response code: "
                       +:+ Itoa (StatusCode resp)))
          end
      end
  end.

(** [SearchGoogle(ctx, searchTerm, opts...)]; [None] is the nil
    context. *)
Definition SearchGoogle (world : World) (ctx : option Context)
    (searchTerm : string) (opts : list SearchOptions)
    : list string * Outcome (list Result) :=
  let ctx :=
    match ctx with
    | None => Some Background
    | Some _ => ctx
    end in
  searchWith world ctx searchTerm opts.

End World.

(** [containsAny]. *)
Fixpoint containsAny (text : string) (values : list string) : bool :=
  match values with
  | [] => false
  | value :: rest =>
      if Str.Contains text value then true else containsAny text rest
  end.

(** [base]. *)
Definition base (url : string) : string :=
  if Str.HasPrefix url "http" then url else stdGoogleBase +:+ url.

(** The bytes [QueryEscape] copies. *)
Definition unreserved (c : ascii) : bool := negb (shouldEscape c).

(** The options [SearchGoogle] works with: the first of [opts] (the zero
    value without), with the default user agent when it has none. *)
Definition chosenOptions (opts : list SearchOptions) : SearchOptions :=
  let opt := match opts with o :: _ => o | [] => noOptions end in
  if String.eqb (UserAgent opt) "" then withUserAgent opt defaultUserAgent
  else opt.

(** The request [SearchGoogle] builds and the client it sends it with. *)
Definition requestOf (searchTerm : string) (opts : list SearchOptions)
    : Request :=
  let opt := chosenOptions opts in
  mkRequest "GET" (getSearchURL searchTerm opt) (UserAgent opt).

Definition clientOf {Context : Type} (world : World Context)
    (opts : list SearchOptions) : Client :=
  let opt := chosenOptions opts in
  if String.eqb (ProxyAddr opt) "" then mkClient None
  else mkClient
         (Some (match urlParse Context world (ProxyAddr opt) with
                | inr proxyUrl => Some proxyUrl
                | inl _ => None
                end)).

End Search.

(* ===================================================================== *)
(** * Part II: lemmas and theorems *)
(* ===================================================================== *)

(** ** Byte strings *)

Section StrFacts.
Import Str.

Lemma str_app_cons (x : ascii) (a b : string) :
  String x a +:+ b = String x (a +:+ b).
Proof. reflexivity. Qed.

Lemma str_app_nil_r (s : string) : s +:+ "" = s.
Proof. induction s as [|c s IH]; [done|]. by rewrite str_app_cons, IH. Qed.

Lemma str_app_assoc (a b c : string) : (a +:+ b) +:+ c = a +:+ b +:+ c.
Proof. induction a as [|x a IH]; [done|]. by rewrite !str_app_cons, IH. Qed.

(** Two ways of cutting one string: one cut point lies before the other. *)
Lemma str_app_eq_app (a b c d : string) :
  a +:+ b = c +:+ d →
  (∃ m, c = a +:+ m ∧ b = m +:+ d) ∨ (∃ m, a = c +:+ m ∧ d = m +:+ b).
Proof.
  revert c. induction a as [|x a IH]; intros c H.
  - left. by exists c.
  - destruct c as [|y c].
    + right. by exists (String x a).
    + rewrite !str_app_cons in H. injection H as -> H.
      destruct (IH _ H) as [[m [-> ->]]|[m [-> ->]]].
      * left. by exists m.
      * right. by exists m.
Qed.

Lemma CutPrefix_Some (p s x : string) : CutPrefix p s = Some x ↔ s = p +:+ x.
Proof.
  revert s. induction p as [|a p IH]; intros s; cbn.
  - split; [by intros [= ->]|by intros ->].
  - destruct s as [|b s]; [split; discriminate|].
    rewrite str_app_cons.
    destruct (Ascii.eqb_spec a b) as [->|Hne].
    + rewrite IH. split; [by intros ->|by intros [= ->]].
    + split; [discriminate|]. by intros [= -> _].
Qed.

Lemma CutPrefix_None (p s : string) : CutPrefix p s = None ↔ ∀ x, s ≠ p +:+ x.
Proof.
  split.
  - intros H x Hx. apply CutPrefix_Some in Hx. congruence.
  - intros H. destruct (CutPrefix p s) as [x|] eqn:E; [|done].
    apply CutPrefix_Some in E. by destruct (H x).
Qed.

Lemma HasPrefix_true (s p : string) :
  HasPrefix s p = true ↔ ∃ x, s = p +:+ x.
Proof.
  unfold HasPrefix. destruct (CutPrefix p s) as [x|] eqn:E.
  - apply CutPrefix_Some in E. split; [by exists x|done].
  - split; [done|]. intros [x Hx]. apply CutPrefix_Some in Hx. congruence.
Qed.


Lemma nospace_app (a b : string) :
  nospace (a +:+ b) = nospace a && nospace b.
Proof.
  induction a as [|x a IH]; [done|].
  rewrite str_app_cons. cbn. rewrite IH. by rewrite andb_assoc.
Qed.

Lemma consField_elem (x t : string) (ts : list string) :
  x ∈ consField t ts ↔ (t ≠ "" ∧ x = t) ∨ x ∈ ts.
Proof.
  destruct t as [|c t]; cbn.
  - split; [by right|]. by intros [[? _]|?].
  - rewrite elem_of_cons. split.
    + intros [->|?]; [by left|by right].
    + intros [[_ ->]|?]; [by left|by right].
Qed.

(** A string that ends at a gap and is followed by a token start cannot be
    a run of non-space bytes, unless it is empty. *)
Lemma endsAtGap_nospace (l : string) :
  endsAtGap l → nospace l = true → l = "".
Proof.
  intros [->|(l' & w & -> & Hw)] Hn; [done|].
  rewrite nospace_app in Hn. cbn in Hn. rewrite Hw in Hn.
  by destruct (nospace l').
Qed.

Lemma startsAtGap_nospace (r : string) :
  startsAtGap r → nospace r = true → r = "".
Proof.
  intros [->|(w & r' & -> & Hw)] Hn; [done|].
  cbn in Hn. by rewrite Hw in Hn.
Qed.

Lemma endsAtGap_app (a b : string) : b ≠ "" → endsAtGap b → endsAtGap (a +:+ b).
Proof.
  intros Hb [->|(b' & w & -> & Hw)]; [done|].
  right. exists (a +:+ b'), w. by rewrite str_app_assoc.
Qed.

(** The last byte of a non-empty string. *)
Lemma snoc_inv (s : string) : s = "" ∨ ∃ s' w, s = s' +:+ String w "".
Proof.
  induction s as [|c s IH]; [by left|]. right.
  destruct IH as [->|(s' & w & ->)].
  - by exists "", c.
  - by exists (String c s'), w.
Qed.

Lemma snoc_inj (a b : string) (x y : ascii) :
  a +:+ String x "" = b +:+ String y "" → a = b ∧ x = y.
Proof.
  revert b. induction a as [|c a IH]; intros [|d b] H; rewrite ?str_app_cons in H.
  - by injection H as ->.
  - injection H as -> H. destruct b; discriminate.
  - injection H as -> H. destruct a; discriminate.
  - injection H as -> H. destruct (IH _ H) as [-> ->]. done.
Qed.

Lemma endsAtGap_app_inv (a b : string) :
  b ≠ "" → endsAtGap (a +:+ b) → endsAtGap b.
Proof.
  intros Hb [H|(s' & w & H & Hw)].
  - destruct a; [done|discriminate].
  - destruct (snoc_inv b) as [->|(b' & y & ->)]; [done|].
    rewrite <- str_app_assoc in H. apply snoc_inj in H as [_ ->].
    right. by exists b', w.
Qed.

Lemma startsAtGap_app_nospace (k r : string) :
  startsAtGap (k +:+ r) → nospace k = true → k = "".
Proof.
  destruct k as [|c k]; [done|]. rewrite str_app_cons.
  intros [?|(w & s' & [= -> _] & Hw)]; [done|]. cbn. by rewrite Hw.
Qed.

Lemma isToken_run (x t rest : string) :
  nospace t = true → startsAtGap rest →
  isToken x (t +:+ rest) ↔ (t ≠ "" ∧ x = t) ∨ isToken x rest.
Proof.
  intros Ht Hrest. split.
  - intros (Hx & Hnx & l & r & Heq & Hl & Hr).
    destruct (str_app_eq_app _ _ _ _ Heq) as [(m & -> & ->)|(m & -> & Hm)].
    + (* the left context reaches beyond [t] *)
      destruct (decide (m = "")) as [->|Hm].
      * rewrite str_app_nil_r in Hl. rewrite (endsAtGap_nospace _ Hl Ht) in *.
        right. split; [done|]. split; [done|]. exists "", r.
        split; [done|]. split; [by left|done].
      * right. split; [done|]. split; [done|]. exists m, r.
        split; [done|]. split; [|done]. by eapply endsAtGap_app_inv.
    + (* the left context is inside [t]: it is empty *)
      rewrite nospace_app in Ht. apply andb_true_iff in Ht as [Hl' Hm'].
      pose proof (endsAtGap_nospace _ Hl Hl') as ->. clear Heq.
      change ("" +:+ m) with m in *.
      destruct (str_app_eq_app _ _ _ _ Hm) as [(k & -> & ->)|(k & -> & ->)].
      * (* [x] is a prefix of [t], and ends at a gap *)
        rewrite nospace_app in Hm'. apply andb_true_iff in Hm' as [_ Hk].
        rewrite (startsAtGap_app_nospace _ _ Hr Hk), str_app_nil_r. by left.
      * (* [t] is a prefix of [x], and ends at a gap *)
        rewrite nospace_app in Hnx. apply andb_true_iff in Hnx as [_ Hk].
        rewrite (startsAtGap_app_nospace _ _ Hrest Hk), str_app_nil_r in *.
        by left.
  - intros [[Hne ->]|(Hx & Hnx & l & r & -> & Hl & Hr)].
    + split; [done|]. split; [done|]. exists "", rest.
      split; [done|]. split; [by left|done].
    + split; [done|]. split; [done|].
      destruct (decide (l = "")) as [->|Hne].
      * (* [x] would start the rest, which starts with a gap *)
        change ("" +:+ x +:+ r) with (x +:+ r) in Hrest.
        by pose proof (startsAtGap_app_nospace _ _ Hrest Hnx).
      * exists (t +:+ l), r. rewrite str_app_assoc. split; [done|].
        split; [by apply endsAtGap_app|done].
Qed.

(** White space in front of a string does not change its tokens. *)
Lemma isToken_space (x : string) (w : ascii) (r : string) :
  Ascii.is_space w = true → isToken x (String w r) ↔ isToken x r.
Proof.
  intros Hw. split.
  - intros (Hx & Hnx & l & r' & Heq & Hl & Hr).
    destruct l as [|c l].
    + destruct x as [|c x]; [done|]. cbn in Heq. rewrite str_app_cons in Heq.
      injection Heq as -> _. cbn in Hnx. by rewrite Hw in Hnx.
    + rewrite str_app_cons in Heq. injection Heq as <- ->.
      split; [done|]. split; [done|]. exists l, r'. split; [done|].
      split; [|done].
      destruct (decide (l = "")) as [->|Hne]; [by left|].
      by apply (endsAtGap_app_inv (String w "") l).
  - intros (Hx & Hnx & l & r' & -> & Hl & Hr).
    split; [done|]. split; [done|]. exists (String w l), r'.
    split; [done|]. split; [|done].
    destruct (decide (l = "")) as [->|Hne].
    + right. by exists "", w.
    + by apply (endsAtGap_app (String w "") l).
Qed.

(** What [FieldsGo] returns: the leading run of non-space bytes, and the
    tokens of what follows it. *)
Lemma FieldsGo_spec (s : string) :
  ∃ rest, s = (FieldsGo s).1 +:+ rest ∧ nospace (FieldsGo s).1 = true
          ∧ startsAtGap rest
          ∧ ∀ x, x ∈ (FieldsGo s).2 ↔ isToken x rest.
Proof.
  induction s as [|c s (rest & Heq & Hn & Hgap & Htok)].
  - exists "". cbn. split; [done|]. split; [done|]. split; [by left|].
    intros x. split; [by intros ?%elem_of_nil|].
    intros (Hx & _ & l & r & E & _). symmetry in E.
    destruct l; [|discriminate]. destruct x; [done|discriminate].
  - cbn. destruct (FieldsGo s) as [t ts] eqn:E. cbn in *.
    destruct (Ascii.is_space c) eqn:Hc; cbn.
    + exists (String c s). split; [done|]. split; [done|].
      split; [right; by exists c, s|].
      intros x. rewrite (isToken_space x c s Hc), consField_elem, Htok.
      rewrite <- (isToken_run x t rest Hn Hgap). by rewrite <- Heq.
    + exists rest. rewrite str_app_cons, <- Heq. split; [done|].
      split; [cbn; by rewrite Hc, Hn|]. done.
Qed.

(** [Fields] returns exactly the tokens of the string. *)
Lemma Fields_elem (x s : string) : x ∈ Fields s ↔ isToken x s.
Proof.
  destruct (FieldsGo_spec s) as (rest & Heq & Hn & Hgap & Htok).
  unfold Fields. destruct (FieldsGo s) as [t ts]. cbn in *.
  rewrite consField_elem, Htok.
  rewrite <- (isToken_run x t rest Hn Hgap). by rewrite <- Heq.
Qed.

End StrFacts.

(** ** Package [markdown]: the accessors *)

Section AccessorFacts.
Import Html Markdown.

Lemma lookupAttr_first (attrs before after : list Attribute) (a v : string) :
  attrs = before ++ mkAttribute a v :: after →
  Forall (λ x, Key x ≠ a) before →
  lookupAttr attrs a = Some v.
Proof.
  intros -> H. induction H as [|x before Hx _ IH]; cbn.
  - by rewrite String.eqb_refl.
  - apply String.eqb_neq in Hx. by rewrite Hx.
Qed.

Lemma lookupAttr_absent (attrs : list Attribute) (a : string) :
  Forall (λ x, Key x ≠ a) attrs → lookupAttr attrs a = None.
Proof.
  induction 1 as [|x attrs Hx _ IH]; [done|].
  cbn. apply String.eqb_neq in Hx. by rewrite Hx.
Qed.

Lemma attr_absent (n : Node) (a : string) :
  Forall (λ x, Key x ≠ a) (Attr n) → attr n a = "".
Proof. intros H. unfold attr. by rewrite lookupAttr_absent. Qed.

Lemma existsb_eqb_elem (x : string) (l : list string) :
  existsb (String.eqb x) l = true ↔ x ∈ l.
Proof.
  induction l as [|y l IH]; cbn.
  - split; [done|by intros ?%elem_of_nil].
  - rewrite orb_true_iff, IH, elem_of_cons, String.eqb_eq. done.
Qed.




(** The tests of [hasClass], [attr] and [langFromClass] pass on the
    model. *)
Lemma TestHasClass_passes : TestHasClass = [].
Proof. reflexivity. Qed.

Lemma TestAttr_passes : TestAttr = [].
Proof. reflexivity. Qed.

Lemma TestLangFromClass_passes : TestLangFromClass = [].
Proof. reflexivity. Qed.

(** [TestIsChildOf] does not: its second check wants [false] for
    (p, "div") in the chain div → span → p, where the parent chain of the
    specification gives [true]. *)
Lemma TestIsChildOf_second_check :
  TestIsChildOf isChildOf = ["pNode should not be a direct child of divNode"].
Proof. reflexivity. Qed.













(** C4: [hasClass n c] is true if and only if [c] is a complete
    white-space separated token of the class attribute of [n], whatever
    the runs of white space between the tokens; for class "class1 class2"
    it is true for "class1" and "class2" and false for "class3". *)
Theorem hasClass_iff_token (n : Node) (c : string) :
  (hasClass n c = true ↔ Str.isToken c (attr n "class"))
  ∧ (let node := mkNode Nil Nil Nil ErrorNode ""
                   [mkAttribute "class" "class1 class2"] in
     hasClass node "class1" = true ∧ hasClass node "class2" = true
     ∧ hasClass node "class3" = false)
  ∧ (let node := mkNode Nil Nil Nil ErrorNode ""
                   [mkAttribute "class"
                      ("  class1 " +:+ Str.tab +:+ Str.nl +:+ "  class2")] in
     hasClass node "class1" = true ∧ hasClass node "class2" = true
     ∧ hasClass node "class" = false).
Proof.
  split; [|by repeat split].
  unfold hasClass. by rewrite existsb_eqb_elem, Fields_elem.
Qed.

(** C5: [attr n a] is a total function; it is the value of the first
    attribute named [a] when there is one, and the empty string when no
    attribute of [n] is named [a] or when [n] has no attribute; the three
    checks of [TestAttr] hold. *)
Theorem attr_value_or_empty (n : Node) (a : string) :
  (∀ before v after,
      Attr n = before ++ mkAttribute a v :: after →
      Forall (λ x, Key x ≠ a) before →
      attr n a = v)
  ∧ (Forall (λ x, Key x ≠ a) (Attr n) → attr n a = "")
  ∧ (Attr n = [] → attr n a = "")
  ∧ TestAttr = [].
Proof.
  split; [|split; [|split]].
  - intros before v after Heq Hbefore. unfold attr.
    by rewrite (lookupAttr_first _ before after a v).
  - apply attr_absent.
  - intros H. unfold attr. by rewrite H.
  - reflexivity.
Qed.

Lemma attr_value_or_empty_witness :
  let node := mkNode Nil Nil Nil ErrorNode ""
                [mkAttribute "class" "myclass"; mkAttribute "id" "myid"] in
  attr node "id" = "myid" ∧ attr node "style" = ""
  ∧ attr (mkNode Nil Nil Nil ErrorNode "" []) "style" = "".
Proof.
  intros node. split; [|split].
  - apply (proj1 (attr_value_or_empty node "id")
             [mkAttribute "class" "myclass"] "myid" []).
    + reflexivity.
    + repeat constructor. discriminate.
  - apply (proj1 (proj2 (attr_value_or_empty node "style"))).
    repeat constructor; discriminate.
  - apply (proj1 (proj2 (proj2 (attr_value_or_empty
                                  (mkNode Nil Nil Nil ErrorNode "" [])
                                  "style")))).
    reflexivity.
Defined.

End AccessorFacts.

(** ** Package [store] *)

Section StoreFacts.
Import Html Store.

Lemma concat_app (l1 l2 : list string) :
  Str.concat (l1 ++ l2) = Str.concat l1 +:+ Str.concat l2.
Proof.
  induction l1 as [|x l1 IH]; [done|].
  cbn. by rewrite IH, str_app_assoc.
Qed.

(** A callback that appends to what it is given builds the concatenation
    of what it appends. *)
Lemma EachFrom_append (i : nat) (s : Selection) (g : Selection → string)
    (acc : string) :
  EachFrom i s (λ _ sel out, out +:+ g sel) acc
  = acc +:+ Str.concat (map (λ n, g [n]) s).
Proof.
  revert i acc. induction s as [|n s IH]; intros i acc; cbn.
  - by rewrite str_app_nil_r.
  - by rewrite IH, str_app_assoc.
Qed.

Lemma Find_single (tags : list string) (n : Node) :
  Find tags [n] = findIn (hasTag tags) n.
Proof. unfold Find. cbn. by rewrite app_nil_r. Qed.

Lemma SelectionText_single (n : Node) : SelectionText [n] = nodeText n.
Proof. unfold SelectionText. cbn. by rewrite str_app_nil_r. Qed.

Lemma NodeName_element (n : Node) (tag : string) :
  isElement n = true → Data n = tag → NodeName [n] = tag.
Proof.
  destruct n as [|up fc ns ty d attrs]; [done|].
  unfold isElement. cbn. by destruct ty.
Qed.

(** C6, as stated, fails: for <img alt="logo"> the call prints the line
    "img :  " and nothing else; the alt text is not in the output. *)
Lemma sampleImage_alt_not_printed :
  lookupAttr (Attr sampleImage) "alt" = Some "logo"
  ∧ TraverseAndExtract [sampleImage] = "img :  " +:+ Str.nl
  ∧ Str.Contains (TraverseAndExtract [sampleImage]) "logo" = false.
Proof. repeat split. Qed.

(** C6, amended: for every img element, [TraverseAndExtract] prints one
    line, "img :  " followed by the target, where the target is the value
    of the src attribute when the element has one and the value of
    data-src otherwise (empty without data-src); when neither attribute
    is present the line is still printed, with an empty target.  The
    line does not depend on any other attribute. *)
Theorem TraverseAndExtract_img (n : Node) :
  isElement n = true → Data n = "img" →
  TraverseAndExtract [n]
  = "img :  "
    +:+ match lookupAttr (Attr n) "src" with
        | Some src => src
        | None => default "" (lookupAttr (Attr n) "data-src")
        end
    +:+ Str.nl
  ∧ (lookupAttr (Attr n) "src" = None →
     lookupAttr (Attr n) "data-src" = None →
     TraverseAndExtract [n] = "img :  " +:+ Str.nl).
Proof.
  intros Hel Htag.
  assert (TraverseAndExtract [n]
          = "img :  "
            +:+ match lookupAttr (Attr n) "src" with
                | Some src => src
                | None => default "" (lookupAttr (Attr n) "data-src")
                end
            +:+ Str.nl) as Heq.
  { unfold TraverseAndExtract. rewrite (NodeName_element n "img" Hel Htag).
    cbn [oneOf existsb String.eqb Ascii.eqb Bool.eqb orb].
    unfold SelectionAttr.
    destruct (lookupAttr (Attr n) "src") as [src|]; cbn [negb fst].
    - reflexivity.
    - by destruct (lookupAttr (Attr n) "data-src"). }
  split; [done|]. intros Hsrc Hdata. by rewrite Heq, Hsrc, Hdata.
Qed.

Lemma TraverseAndExtract_img_witness :
  TraverseAndExtract
    [element "img" [mkAttribute "data-src" "lazy.png"] Nil Nil]
  = "img :  " +:+ "lazy.png" +:+ Str.nl
  ∧ TraverseAndExtract [sampleImage] = "img :  " +:+ Str.nl.
Proof.
  split.
  - apply (proj1 (TraverseAndExtract_img
                    (element "img" [mkAttribute "data-src" "lazy.png"] Nil Nil)
                    eq_refl eq_refl)).
  - apply (proj2 (TraverseAndExtract_img sampleImage eq_refl eq_refl));
      reflexivity.
Defined.

(** C7, as stated, fails: for a table with one header row and two data
    rows the call prints three lines, one per row; the line after the
    header row is the first data row, and no line is a separator row. *)
Lemma sampleTable_no_separator_row :
  Str.Lines (TraverseAndExtract [sampleTable])
  = ["table row:  " +:+ "Name" +:+ Str.tab +:+ "Age" +:+ Str.tab;
     "table row:  " +:+ "Ann" +:+ Str.tab +:+ "31" +:+ Str.tab;
     "table row:  " +:+ "Bob" +:+ Str.tab +:+ "27" +:+ Str.tab]
  ∧ existsb isSeparatorRow (Str.Lines (TraverseAndExtract [sampleTable]))
    = false.
Proof. split; reflexivity. Qed.

(** C7, amended: for every table element, [TraverseAndExtract] prints one
    line per tr row below it, in document order and nothing else: the
    line of a row is "table row:  " followed by the text of each th or td
    cell of the row, each followed by a tab.  With one header row and two
    data rows the output is the three row lines; no header-separator row
    is printed. *)
Theorem TraverseAndExtract_table (n : Node) :
  isElement n = true → Data n = "table" →
  TraverseAndExtract [n]
  = Str.concat (map rowLine (findIn (hasTag ["tr"]) n))
  ∧ (∀ header row1 row2,
        findIn (hasTag ["tr"]) n = [header; row1; row2] →
        TraverseAndExtract [n]
        = rowLine header +:+ rowLine row1 +:+ rowLine row2).
Proof.
  intros Hel Htag.
  assert (TraverseAndExtract [n]
          = Str.concat (map rowLine (findIn (hasTag ["tr"]) n))) as Heq.
  { unfold TraverseAndExtract. rewrite (NodeName_element n "table" Hel Htag).
    cbn [oneOf existsb String.eqb Ascii.eqb Bool.eqb orb].
    unfold Each.
    rewrite (EachFrom_append 0 (Find ["tr"] [n])
               (λ tr, Println ["table row: ";
                               EachFrom 0 (Find ["th"; "td"] tr)
                                 (λ _ cell cells,
                                    cells +:+ SelectionText cell +:+ Str.tab)
                                 ""])).
    rewrite Find_single. change ("" +:+ ?x) with x. f_equal.
    apply map_ext. intros tr. unfold rowLine. do 3 f_equal.
    rewrite (EachFrom_append 0 _ (λ cell, SelectionText cell +:+ Str.tab)).
    rewrite Find_single. change ("" +:+ ?x) with x. f_equal.
    apply map_ext. intros cell. by rewrite SelectionText_single. }
  split; [done|]. intros header row1 row2 Hrows. rewrite Heq, Hrows.
  cbn. by rewrite str_app_nil_r.
Qed.

Lemma TraverseAndExtract_table_witness :
  TraverseAndExtract [sampleTable]
  = Str.concat (map rowLine (findIn (hasTag ["tr"]) sampleTable)).
Proof.
  apply (proj1 (TraverseAndExtract_table sampleTable eq_refl eq_refl)).
Defined.

End StoreFacts.

(** ** Package [search] *)

Section SearchFacts.
Import Search.

Lemma GoogleDomains_us : GoogleDomains !! "us" = Some "com/search?q=".
Proof. reflexivity. Qed.

Lemma allBytes_app (p : ascii → bool) (a b : string) :
  allBytes p (a +:+ b) = allBytes p a && allBytes p b.
Proof.
  induction a as [|c a IH]; [done|].
  rewrite str_app_cons. cbn. by rewrite IH, andb_assoc.
Qed.

Lemma QueryEscape_cons (c : ascii) (s : string) :
  QueryEscape (String c s) = QueryEscape (String c "") +:+ QueryEscape s.
Proof.
  cbn. destruct (shouldEscape c); [destruct (Ascii.eqb c " ")|]; reflexivity.
Qed.

Lemma QueryEscape_byte_safe (c : ascii) :
  allBytes querySafe (QueryEscape (String c "")) = true.
Proof. destruct c as [[] [] [] [] [] [] [] []]; reflexivity. Qed.

Lemma QueryEscape_safe (s : string) : allBytes querySafe (QueryEscape s) = true.
Proof.
  induction s as [|c s IH]; [done|].
  by rewrite QueryEscape_cons, allBytes_app, QueryEscape_byte_safe, IH.
Qed.

Lemma QueryUnescape_byte (c : ascii) (rest : string) :
  QueryUnescape (QueryEscape (String c "") +:+ rest)
  = String c <$> QueryUnescape rest.
Proof. destruct c as [[] [] [] [] [] [] [] []]; reflexivity. Qed.

Lemma QueryUnescape_QueryEscape (s : string) :
  QueryUnescape (QueryEscape s) = Some s.
Proof.
  induction s as [|c s IH]; [done|].
  by rewrite QueryEscape_cons, QueryUnescape_byte, IH.
Qed.

(** C9: [getSearchURL] starts the URL with "https://www.google." and the
    domain [GoogleDomains] maps the country code to when the code is one
    of its keys, and with "https://www.google.com/search?q=" (the "us"
    domain) otherwise; then comes the search term, query-escaped (only
    letters, digits and - _ . ~ + % are left, and unescaping gives the
    term back), then the language and the start rank. *)
Theorem getSearchURL_domain (searchTerm : string) (opts : SearchOptions) :
  getSearchURL searchTerm opts
  = match GoogleDomains !! CountryCode opts with
    | Some domain => stdGoogleBase +:+ domain
    | None => "https://www.google.com/search?q="
    end
    +:+ QueryEscape searchTerm +:+ "&hl=" +:+ LanguageCode opts
    +:+ "&start=" +:+ Itoa (Start opts)
  ∧ allBytes querySafe (QueryEscape searchTerm) = true
  ∧ QueryUnescape (QueryEscape searchTerm) = Some searchTerm.
Proof.
  split; [|split].
  - unfold getSearchURL. rewrite GoogleDomains_us.
    destruct (GoogleDomains !! CountryCode opts) as [domain|];
      by rewrite !str_app_assoc.
  - apply QueryEscape_safe.
  - apply QueryUnescape_QueryEscape.
Qed.

Lemma eachHit_no_context_panic {Context : Type} (world : World Context)
    (hits : list Hit) :
  ∀ rank results, eachHit Context world rank results hits ≠ Panicked NilContext.
Proof.
  induction hits as [|el hits IH]; intros rank results; cbn.
  - discriminate.
  - destruct (urlParse Context world (hitHref el)); [discriminate|apply IH].
Qed.

Lemma searchWith_no_context_panic {Context : Type} (world : World Context)
    (ctx : Context) (searchTerm : string) (opts : list SearchOptions) :
  (searchWith Context world (Some ctx) searchTerm opts).2 ≠ Panicked NilContext.
Proof.
  unfold searchWith, Wait.
  destruct (RateLimitWait Context world ctx); [discriminate|].
  destruct (urlParse Context world _); [discriminate|].
  destruct (clientDo Context world _ _) as [err|resp]; [discriminate|].
  destruct (StatusCode resp =? 200)%Z; [|discriminate].
  unfold parseResults. destruct (Body resp) as [err|hits]; [discriminate|].
  pose proof (eachHit_no_context_panic world hits 1 []) as Hend.
  by destruct (eachHit Context world 1 [] hits) as [results|err|[]].
Qed.

(** C10: [SearchGoogle] on a nil context runs on a background context:
    the call is the call on [context.Background()], the rate limiter
    (the one place that uses the context) is given the background
    context, and the call never ends in the panic of a nil context,
    which is how the rest of the function would end on a nil context. *)
Theorem SearchGoogle_nil_context (Context : Type) (Background : Context)
    (world : World Context) (searchTerm : string) (opts : list SearchOptions) :
  SearchGoogle Context Background world None searchTerm opts
  = SearchGoogle Context Background world (Some Background) searchTerm opts
  ∧ SearchGoogle Context Background world None searchTerm opts
    = searchWith Context world (Some Background) searchTerm opts
  ∧ (SearchGoogle Context Background world None searchTerm opts).2
    ≠ Panicked NilContext
  ∧ searchWith Context world None searchTerm opts = ([], Panicked NilContext).
Proof.
  split; [done|]. split; [done|]. split; [|done].
  apply searchWith_no_context_panic.
Qed.

End SearchFacts.

(** ** Package [search]: further properties *)

Section SearchMore.
Import Search.

Lemma Contains_unfold (s needle : string) :
  Str.Contains s needle
  = match Str.CutPrefix needle s with
    | Some _ => true
    | None =>
        match s with
        | "" => false
        | String _ r => Str.Contains r needle
        end
    end.
Proof. by destruct s. Qed.

(** [strings.Contains]: the needle occurs between some left and right
    context. *)
Lemma Contains_spec (s needle : string) :
  Str.Contains s needle = true ↔ ∃ l r, s = l +:+ needle +:+ r.
Proof.
  induction s as [|c s IH]; rewrite Contains_unfold.
  - destruct (Str.CutPrefix needle "") as [x|] eqn:E.
    + apply CutPrefix_Some in E. split; [by exists "", x|done].
    + split; [done|]. intros (l & r & Heq). symmetry in Heq.
      destruct l; [|discriminate].
      exfalso. apply (proj1 (CutPrefix_None needle "") E r). by symmetry.
  - destruct (Str.CutPrefix needle (String c s)) as [x|] eqn:E.
    + apply CutPrefix_Some in E. split; [by exists "", x|done].
    + rewrite IH. split.
      * intros (l & r & ->). by exists (String c l), r.
      * intros (l & r & Heq). destruct l as [|d l].
        -- by destruct (proj1 (CutPrefix_None needle _) E r).
        -- rewrite str_app_cons in Heq. injection Heq as _ ->. by exists l, r.
Qed.

(** X1: [containsAny text values] is true exactly when one of the values
    occurs in the text; without values it is false, and an empty value
    occurs in every text. *)
Theorem containsAny_substring (text : string) (values : list string) :
  (containsAny text values = true
   ↔ ∃ value l r, value ∈ values ∧ text = l +:+ value +:+ r)
  ∧ containsAny text [] = false
  ∧ ("" ∈ values → containsAny text values = true).
Proof.
  assert (containsAny text values = true
          ↔ ∃ value l r, value ∈ values ∧ text = l +:+ value +:+ r) as Hiff.
  { induction values as [|v values IH]; cbn.
    - split; [done|]. by intros (? & ? & ? & ?%elem_of_nil & _).
    - destruct (Str.Contains text v) eqn:E.
      + apply Contains_spec in E as (l & r & ->).
        split; [|done]. intros _. exists v, l, r. split; [by left|done].
      + rewrite IH. split.
        * intros (x & l & r & Hx & Heq). exists x, l, r. split; [by right|done].
        * intros (x & l & r & Hx & Heq).
          apply elem_of_cons in Hx as [->|Hx]; [|by exists x, l, r].
          assert (Str.Contains text v = true) as E'
            by (apply Contains_spec; by exists l, r).
          congruence. }
  split; [done|]. split; [done|].
  intros Hin. apply Hiff. exists "", "", text. by split.
Qed.

Lemma containsAny_substring_witness :
  containsAny "the news blog" ["content"; "blog"] = true.
Proof.
  apply (proj1 (containsAny_substring "the news blog" ["content"; "blog"])).
  exists "blog", "the news ", "". split; [|reflexivity].
  do 2 constructor.
Defined.

(** X2: [base] always returns a string that starts with "http", leaves
    such a string as it is, and applying it twice is applying it once. *)
Theorem base_http (url : string) :
  Str.HasPrefix (base url) "http" = true
  ∧ (Str.HasPrefix url "http" = true → base url = url)
  ∧ base (base url) = base url.
Proof.
  assert (Str.HasPrefix (base url) "http" = true) as H.
  { unfold base. destruct (Str.HasPrefix url "http") eqn:E; [done|].
    apply HasPrefix_true. by exists ("s://www.google." +:+ url). }
  split; [done|]. split.
  - intros E. unfold base. by rewrite E.
  - unfold base at 1. by rewrite H.
Qed.

Lemma base_http_witness : base "http://example.org" = "http://example.org".
Proof. apply (proj1 (proj2 (base_http "http://example.org"))). reflexivity. Defined.

Lemma QueryEscape_length (s : string) :
  String.length s ≤ String.length (QueryEscape s).
Proof.
  induction s as [|c s IH]; [done|]. cbn.
  destruct (shouldEscape c); [destruct (Ascii.eqb c " ")|]; cbn; lia.
Qed.

Lemma QueryEscape_unreserved (s : string) :
  QueryEscape s = s ↔ allBytes unreserved s = true.
Proof.
  induction s as [|c s IH]; [done|]. cbn. unfold unreserved at 1.
  destruct (shouldEscape c) eqn:Hc; cbn.
  - split; [|done]. destruct (Ascii.eqb_spec c " ") as [->|Hsp].
    + discriminate.
    + intros [= _ Hs]. pose proof (QueryEscape_length s) as Hlen.
      rewrite <- Hs in Hlen at 1. cbn in Hlen. lia.
  - rewrite <- IH. split; [by intros [= ->]|by intros ->].
Qed.

Lemma QueryEscape_inj (a b : string) : QueryEscape a = QueryEscape b → a = b.
Proof.
  intros H. apply (f_equal QueryUnescape) in H.
  rewrite !QueryUnescape_QueryEscape in H. by injection H.
Qed.

(** Two strings cut at an ampersand, with none before the cut, are cut at
    the same place. *)
Lemma cut_at_ampersand (a b x y : string) :
  allBytes querySafe a = true → allBytes querySafe b = true →
  a +:+ String "&" x = b +:+ String "&" y → a = b ∧ x = y.
Proof.
  revert b. induction a as [|c a IH]; intros [|d b] Ha Hb Heq;
    rewrite ?str_app_cons in Heq.
  - by injection Heq as ->.
  - injection Heq as <- _. discriminate.
  - injection Heq as -> _. discriminate.
  - injection Heq as -> Heq. cbn in Ha, Hb.
    apply andb_true_iff in Ha as [_ Ha]. apply andb_true_iff in Hb as [_ Hb].
    by destruct (IH b Ha Hb Heq) as [-> ->].
Qed.

(** X3: for one country code and one language code, the URL determines
    the search term and the start rank: different terms or different
    ranks never give the same URL. *)
Theorem getSearchURL_inj (term1 term2 : string) (opts1 opts2 : SearchOptions) :
  CountryCode opts1 = CountryCode opts2 →
  LanguageCode opts1 = LanguageCode opts2 →
  getSearchURL term1 opts1 = getSearchURL term2 opts2 →
  term1 = term2 ∧ Start opts1 = Start opts2.
Proof.
  intros Hcc Hlang. unfold getSearchURL. rewrite Hcc, Hlang.
  intros Heq. apply (inj (String.app _)) in Heq.
  change ("&hl=" +:+ ?r) with (String "&" ("hl=" +:+ r)) in Heq.
  apply cut_at_ampersand in Heq as [Hterm Hrest];
    [|apply QueryEscape_safe..].
  split; [by apply QueryEscape_inj|].
  do 3 apply (inj (String.app _)) in Hrest.
  unfold Itoa in Hrest. by apply (inj pretty) in Hrest.
Qed.

Lemma getSearchURL_inj_witness :
  let opts := mkSearchOptions "de" "en" 0 10 "" false "" in
  "go lang" = "go lang" ∧ Start opts = Start opts.
Proof.
  intros opts.
  apply (getSearchURL_inj "go lang" "go lang" opts opts); reflexivity.
Defined.

(** Every entry of [GoogleDomains] is a top-level domain followed by
    "/search?q=". *)
Lemma GoogleDomains_search (code domain : string) :
  GoogleDomains !! code = Some domain →
  domain
  = String.substring 0 (String.length domain - 10) domain +:+ "/search?q=".
Proof.
  unfold GoogleDomains. intros H%elem_of_list_to_map_2.
  eapply (proj1 (Forall_forall
                   (λ kv : string * string,
                      kv.2 = String.substring 0 (String.length kv.2 - 10) kv.2
                             +:+ "/search?q=") _))
    in H; [exact H|].
  repeat constructor.
Qed.

Lemma getSearchURL_tld (searchTerm : string) (opts : SearchOptions) :
  ∃ tld,
    getSearchURL searchTerm opts
    = "https://www.google." +:+ tld +:+ "/search?q="
      +:+ QueryEscape searchTerm +:+ "&hl=" +:+ LanguageCode opts
      +:+ "&start=" +:+ Itoa (Start opts).
Proof.
  unfold getSearchURL. rewrite GoogleDomains_us.
  destruct (GoogleDomains !! CountryCode opts) as [domain|] eqn:E.
  - apply GoogleDomains_search in E.
    exists (String.substring 0 (String.length domain - 10) domain).
    rewrite E at 1. by rewrite !str_app_assoc.
  - by exists "com".
Qed.


(** X5: a search term made of letters, digits and - _ . ~ only is put in
    the URL as it is, and no other term is: [QueryEscape] changes every
    term that holds another byte. *)
Theorem getSearchURL_verbatim (searchTerm : string) (opts : SearchOptions) :
  (allBytes unreserved searchTerm = true ↔ QueryEscape searchTerm = searchTerm)
  ∧ (allBytes unreserved searchTerm = true →
     ∃ tld,
       getSearchURL searchTerm opts
       = "https://www.google." +:+ tld +:+ "/search?q=" +:+ searchTerm
         +:+ "&hl=" +:+ LanguageCode opts +:+ "&start=" +:+ Itoa (Start opts)).
Proof.
  split; [by rewrite QueryEscape_unreserved|].
  intros H%QueryEscape_unreserved.
  destruct (getSearchURL_tld searchTerm opts) as [tld Heq].
  exists tld. by rewrite Heq, H.
Qed.

Lemma getSearchURL_verbatim_witness :
  ∃ tld,
    getSearchURL "bbc.com" noOptions
    = "https://www.google." +:+ tld +:+ "/search?q=" +:+ "bbc.com"
      +:+ "&hl=" +:+ "" +:+ "&start=" +:+ Itoa 0.
Proof.
  apply (proj2 (getSearchURL_verbatim "bbc.com" noOptions)). reflexivity.
Defined.

(** What [eachHit] adds to the results when it returns: one result per
    element, in order, ranked from [rank] on. *)
Lemma eachHit_Return {Context : Type} (world : World Context)
    (hits : list Hit) :
  ∀ rank results out,
    eachHit Context world rank results hits = Return out →
    ∃ added,
      out = results ++ added ∧ length added = length hits
      ∧ ∀ (i : nat) hit, hits !! i = Some hit →
          ∃ u, urlParse Context world (hitHref hit) = inr u
               ∧ added !! i
                 = Some (mkResult (rank + Z.of_nat i)
                           ("http://" +:+ Host u +:+ Path u)
                           (hitTitle hit) (hitDescription hit)).
Proof.
  induction hits as [|el hits IH]; intros rank results out; cbn.
  - intros [= <-]. exists []. rewrite app_nil_r. by repeat split.
  - destruct (urlParse Context world (hitHref el)) as [e|u] eqn:Hu;
      [discriminate|].
    intros (added & -> & Hlen & Hadded)%IH. eexists (_ :: added).
    rewrite <- app_assoc. split; [done|]. split; [cbn; by rewrite Hlen|].
    intros [|i] hit Hhit; cbn in Hhit.
    + injection Hhit as <-. exists u. split; [done|]. cbn.
      by rewrite Z.add_0_r.
    + destruct (Hadded i hit Hhit) as (u' & Hu' & Hi). exists u'.
      split; [done|]. simpl. rewrite Hi. do 2 f_equal. lia.
Qed.

Lemma eachHit_Panicked {Context : Type} (world : World Context)
    (hits : list Hit) :
  ∀ rank results p,
    eachHit Context world rank results hits = Panicked p
    ↔ p = NilURL
      ∧ Exists (λ el, ∃ e, urlParse Context world (hitHref el) = inl e) hits.
Proof.
  induction hits as [|el hits IH]; intros rank results p; cbn.
  - split; [done|]. by intros [_ ?%Exists_nil].
  - destruct (urlParse Context world (hitHref el)) as [e|u] eqn:Hu.
    + split.
      * intros [= <-]. split; [done|]. left. by exists e.
      * by intros [-> _].
    + rewrite IH, Exists_cons. split.
      * intros [-> H]. split; [done|]. by right.
      * intros [-> [[e He]|H]]; [congruence|done].
Qed.

Lemma eachHit_no_Fail {Context : Type} (world : World Context)
    (hits : list Hit) :
  ∀ rank results err, eachHit Context world rank results hits ≠ Fail err.
Proof.
  induction hits as [|el hits IH]; intros rank results err; cbn; [done|].
  destruct (urlParse Context world (hitHref el)); [done|apply IH].
Qed.

Lemma parseResults_Return {Context : Type} (world : World Context)
    (resp : Response) (logs : list string) (results : list Result) :
  parseResults Context world resp = (logs, Return results) →
  ∃ hits, Body resp = inr hits ∧ length results = length hits.
Proof.
  unfold parseResults. destruct (Body resp) as [err|hits]; [discriminate|].
  intros [= _ (added & -> & Hlen & _)%eachHit_Return]. by exists hits.
Qed.

(** X6: when [parseResults] returns, it returns one result per ".g"
    element of the document, in document order: the i-th has rank i
    (from 1), the title and the description of the element, and as URL
    "http://" followed by the host and the path of its link, whatever the
    scheme and the query of the link. *)
Theorem parseResults_results {Context : Type} (world : World Context)
    (resp : Response) (logs : list string) (results : list Result) :
  parseResults Context world resp = (logs, Return results) →
  ∃ hits,
    Body resp = inr hits ∧ length results = length hits
    ∧ ∀ (i : nat) hit, hits !! i = Some hit →
        ∃ u, urlParse Context world (hitHref hit) = inr u
             ∧ results !! i
               = Some (mkResult (Z.of_nat (S i))
                         ("http://" +:+ Host u +:+ Path u)
                         (hitTitle hit) (hitDescription hit)).
Proof.
  unfold parseResults. destruct (Body resp) as [err|hits]; [discriminate|].
  intros [= _ (added & -> & Hlen & Hadded)%eachHit_Return].
  exists hits. split; [done|]. split; [done|].
  intros i hit Hhit. destruct (Hadded i hit Hhit) as (u & Hu & Hi).
  exists u. split; [done|]. cbn [app]. rewrite Hi. do 2 f_equal. lia.
Qed.

Lemma parseResults_results_witness :
  let world := mkWorld unit (λ _, None) (λ link, inr (mkURL "example.org" link))
                 (λ _ _, inl "no network") (λ _, "&{}") in
  let resp := mkResponse 200 (inr [mkHit "Title" "/a" "Text"]) in
  ∃ hits,
    Body resp = inr hits ∧ length [mkResult 1 "http://example.org/a" "Title" "Text"]
                           = length hits
    ∧ ∀ (i : nat) hit, hits !! i = Some hit →
        ∃ u, urlParse unit world (hitHref hit) = inr u
             ∧ [mkResult 1 "http://example.org/a" "Title" "Text"] !! i
               = Some (mkResult (Z.of_nat (S i))
                         ("http://" +:+ Host u +:+ Path u)
                         (hitTitle hit) (hitDescription hit)).
Proof.
  intros world resp.
  apply (parseResults_results world resp ["extract s &{}"]). reflexivity.
Defined.

(** X7: [parseResults] fails only when the document cannot be read, and
    then with that error; it panics (on the nil URL) exactly when the
    link of some ".g" element does not parse, and then no result is
    returned, not even those of the elements before. *)
Theorem parseResults_failures {Context : Type} (world : World Context)
    (resp : Response) :
  (∀ err, (parseResults Context world resp).2 = Fail err
          ↔ Body resp = inl err)
  ∧ (∀ p, (parseResults Context world resp).2 = Panicked p
          ↔ p = NilURL
            ∧ ∃ hits,
                Body resp = inr hits
                ∧ Exists (λ el, ∃ e, urlParse Context world (hitHref el) = inl e)
                    hits).
Proof.
  unfold parseResults. destruct (Body resp) as [e|hits]; cbn; split.
  - intros err. split; by intros [= ->].
  - intros p. split; [done|]. by intros [_ (hits & ? & _)].
  - intros err. split; [|done]. by intros ?%eachHit_no_Fail.
  - intros p. rewrite eachHit_Panicked. split.
    + intros [-> H]. split; [done|]. by exists hits.
    + by intros [-> (hits' & [= <-] & H)].
Qed.

(** [searchWith] on a live context, in terms of the request and the
    client of the call. *)
Lemma searchWith_request {Context : Type} (world : World Context)
    (ctx : Context) (searchTerm : string) (opts : list SearchOptions) :
  searchWith Context world (Some ctx) searchTerm opts
  = match RateLimitWait Context world ctx with
    | Some err => ([], Fail err)
    | None =>
        let req := requestOf searchTerm opts in
        match urlParse Context world (RequestURL req) with
        | inl err => ([RequestURL req], Fail err)
        | inr _ =>
            match clientDo Context world (clientOf world opts) req with
            | inl err => ([RequestURL req], Fail err)
            | inr resp =>
                if (StatusCode resp =? 200)%Z then
                  match parseResults Context world resp with
                  | (logs, Fail err) =>
                      (RequestURL req :: logs ++ ["Error parsing results"],
                       Fail err)
                  | (logs, end_) => (RequestURL req :: logs, end_)
                  end
                else
                  ([RequestURL req; "Received non-200 response code"],
                   Fail ("Received non-200 response code: "
                         +:+ Itoa (StatusCode resp)))
            end
        end
    end.
Proof.
  unfold searchWith, Wait, requestOf, clientOf, chosenOptions.
  destruct (RateLimitWait Context world ctx); [done|].
  destruct opts as [|opt rest]; cbn [RequestURL];
    by destruct (String.eqb (UserAgent _) "").
Qed.

Lemma SearchGoogle_live {Context : Type} (Background : Context)
    (world : World Context) (ctx : option Context) (searchTerm : string)
    (opts : list SearchOptions) :
  SearchGoogle Context Background world ctx searchTerm opts
  = searchWith Context world (Some (default Background ctx)) searchTerm opts.
Proof. by destruct ctx. Qed.

(** X8: [SearchGoogle] reads the first of the options only, and of it
    neither [Limit] nor [OverLimit]: the call is the same for every value
    of the two fields and for every further options value. *)
Theorem SearchGoogle_ignores_limit {Context : Type} (Background : Context)
    (world : World Context) (ctx : option Context) (searchTerm : string)
    (opt : SearchOptions) (rest rest' : list SearchOptions)
    (limit : Z) (overLimit : bool) :
  SearchGoogle Context Background world ctx searchTerm (opt :: rest)
  = SearchGoogle Context Background world ctx searchTerm
      (mkSearchOptions (CountryCode opt) (LanguageCode opt) limit (Start opt)
         (UserAgent opt) overLimit (ProxyAddr opt) :: rest').
Proof.
  rewrite !SearchGoogle_live. unfold searchWith.
  destruct (Wait Context world _); [|done..].
  destruct opt as [cc lang lim start ua over proxy]. cbn.
  by destruct (String.eqb ua "").
Qed.

(** X9: [SearchGoogle] returns results only from a response with status
    200 to a GET request with a non-empty user agent, and then one
    result per ".g" element of the body. *)
Theorem SearchGoogle_results {Context : Type} (Background : Context)
    (world : World Context) (ctx : option Context) (searchTerm : string)
    (opts : list SearchOptions) (results : list Result) :
  (SearchGoogle Context Background world ctx searchTerm opts).2
  = Return results →
  ∃ client req resp hits,
    clientDo Context world client req = inr resp
    ∧ Method req = "GET" ∧ HeaderUserAgent req ≠ ""
    ∧ StatusCode resp = 200%Z
    ∧ Body resp = inr hits ∧ length results = length hits.
Proof.
  rewrite SearchGoogle_live, searchWith_request.
  destruct (RateLimitWait Context world _); [discriminate|]. cbn zeta.
  destruct (urlParse Context world _); [discriminate|].
  destruct (clientDo Context world _ _) as [err|resp] eqn:Hdo; [discriminate|].
  destruct (Z.eqb_spec (StatusCode resp) 200) as [Hok|]; [|discriminate].
  destruct (parseResults Context world resp) as [logs end_] eqn:Hparse.
  intros Hend.
  assert (end_ = Return results) as -> by (by destruct end_).
  apply parseResults_Return in Hparse as (hits & Hbody & Hlen).
  exists (clientOf world opts), (requestOf searchTerm opts), resp, hits.
  repeat split; try done.
  unfold requestOf, chosenOptions. cbn.
  destruct (String.eqb_spec (UserAgent (match opts with
                                        | [] => noOptions
                                        | o :: _ => o
                                        end)) ""); [done|done].
Qed.

Lemma SearchGoogle_results_witness :
  let world := mkWorld unit (λ _, None) (λ link, inr (mkURL "example.org" link))
                 (λ _ _, inr (mkResponse 200 (inr [mkHit "Title" "/a" "Text"])))
                 (λ _, "&{}")
  in
  ∃ client req resp hits,
    clientDo unit world client req = inr resp
    ∧ Method req = "GET" ∧ HeaderUserAgent req ≠ ""
    ∧ StatusCode resp = 200%Z
    ∧ Body resp = inr hits
    ∧ length [mkResult 1 "http://example.org/a" "Title" "Text"] = length hits.
Proof.
  intros world.
  apply (SearchGoogle_results tt world None "bbc.com" []). reflexivity.
Defined.

Lemma eachHit_ext {Context : Type} (world world' : World Context)
    (hits : list Hit) :
  (∀ link, urlParse Context world link = urlParse Context world' link) →
  ∀ rank results,
    eachHit Context world rank results hits
    = eachHit Context world' rank results hits.
Proof.
  intros Hparse. induction hits as [|el hits IH]; intros rank results; cbn.
  - done.
  - rewrite Hparse. by destruct (urlParse Context world' (hitHref el)).
Qed.

(** X10: the network enters a call of [SearchGoogle] through one request
    only, the GET of [getSearchURL] of the term and of the first options,
    sent with the user agent of the options (the default one when they
    have none) through the proxy of the options: two worlds with the same
    rate limiter and URL parser that answer this request alike give calls
    that end alike, whatever they answer to other requests and whatever
    addresses they print in the log. *)
Theorem SearchGoogle_one_request {Context : Type} (Background : Context)
    (world world' : World Context) (ctx : option Context)
    (searchTerm : string) (opts : list SearchOptions) :
  (∀ c, RateLimitWait Context world c = RateLimitWait Context world' c) →
  (∀ link, urlParse Context world link = urlParse Context world' link) →
  clientDo Context world (clientOf world opts) (requestOf searchTerm opts)
  = clientDo Context world' (clientOf world opts) (requestOf searchTerm opts) →
  (SearchGoogle Context Background world ctx searchTerm opts).2
  = (SearchGoogle Context Background world' ctx searchTerm opts).2.
Proof.
  intros Hwait Hparse Hdo. rewrite !SearchGoogle_live, !searchWith_request.
  assert (clientOf world' opts = clientOf world opts) as ->
    by (unfold clientOf; by rewrite Hparse).
  cbn zeta. rewrite <- Hwait, <- Hparse, <- Hdo.
  destruct (RateLimitWait Context world _); [done|].
  destruct (urlParse Context world _); [done|].
  destruct (clientDo Context world _ _) as [err|resp]; [done|].
  destruct (StatusCode resp =? 200)%Z; [|done].
  unfold parseResults. destruct (Body resp) as [err|hits]; [done|].
  rewrite (eachHit_ext world world' hits Hparse).
  by destruct (eachHit Context world' 1 [] hits).
Qed.

Lemma SearchGoogle_one_request_witness :
  let answer := inr (mkResponse 200 (inr [mkHit "Title" "/a" "Text"])) in
  let world := mkWorld unit (λ _, None) (λ link, inr (mkURL "example.org" link))
                 (λ _ _, answer) (λ _, "&{[0xc000010000]}") in
  let world' := mkWorld unit (λ _, None)
                  (λ link, inr (mkURL "example.org" link))
                  (λ _ req, if String.eqb (Method req) "GET" then answer
                            else inl "method not allowed")
                  (λ _, "&{[0xc000020000]}") in
  (SearchGoogle unit tt world None "bbc.com" []).2
  = (SearchGoogle unit tt world' None "bbc.com" []).2.
Proof.
  intros answer world world'.
  apply (SearchGoogle_one_request tt world world' None "bbc.com" []);
    reflexivity.
Defined.

Lemma requestOf_defaults (searchTerm : string) :
  requestOf searchTerm []
  = mkRequest "GET"
      ("https://www.google.com/search?q=" +:+ QueryEscape searchTerm
       +:+ "&hl=&start=0")
      defaultUserAgent.
Proof.
  unfold requestOf, chosenOptions.
  change (String.eqb (UserAgent noOptions) "") with true. cbn iota.
  unfold getSearchURL, withUserAgent, noOptions.
  cbn [CountryCode LanguageCode Start UserAgent].
  assert (GoogleDomains !! "" = None) as -> by reflexivity.
  rewrite GoogleDomains_us. f_equal.
Qed.

(** X11: called without options (as [main] calls it), [SearchGoogle] ends
    as one GET of "https://www.google.com/search?q=" + the escaped term +
    "&hl=&start=0" decides, sent with the default user agent through a
    client without proxy: the language code sent is empty.  It returns
    the error of the rate limiter, of the URL parser or of the client,
    the error of a status other than 200, or what [parseResults] makes
    of the response. *)
Theorem SearchGoogle_defaults {Context : Type} (Background : Context)
    (world : World Context) (ctx : option Context) (searchTerm : string) :
  let url := "https://www.google.com/search?q=" +:+ QueryEscape searchTerm
             +:+ "&hl=&start=0" in
  (SearchGoogle Context Background world ctx searchTerm []).2
  = match RateLimitWait Context world (default Background ctx) with
    | Some err => Fail err
    | None =>
        match urlParse Context world url with
        | inl err => Fail err
        | inr _ =>
            match clientDo Context world (mkClient None)
                    (mkRequest "GET" url defaultUserAgent) with
            | inl err => Fail err
            | inr resp =>
                if (StatusCode resp =? 200)%Z
                then (parseResults Context world resp).2
                else Fail ("Received non-200 response code: "
                           +:+ Itoa (StatusCode resp))
            end
        end
    end.
Proof.
  intros url. rewrite SearchGoogle_live, searchWith_request.
  rewrite requestOf_defaults.
  change (clientOf world []) with (mkClient None). cbn zeta. cbn [RequestURL].
  fold url.
  destruct (RateLimitWait Context world _); [done|].
  destruct (urlParse Context world url); [done|].
  destruct (clientDo Context world _ _) as [err|resp]; [done|].
  destruct (StatusCode resp =? 200)%Z; [|done].
  by destruct (parseResults Context world resp) as [logs [results|err|p]].
Qed.

End SearchMore.

(** ** Package [store]: further properties *)

Section StoreMore.
Import Html Store.

(** The text below a node is the data of the text nodes of its subtree,
    in document order. *)
Lemma textFrom_subtrees (n : Node) :
  textFrom n
  = Str.concat (map Data (filter (λ c, isText c = true) (subtrees n))).
Proof.
  induction n as [|up _ fc IHfc ns IHns ty d attrs]; [done|].
  cbn [textFrom subtrees]. rewrite filter_cons, filter_app, IHfc, IHns.
  destruct ty;
    (rewrite decide_True by done) || (rewrite decide_False by done);
    cbn [map Str.concat Data]; by rewrite map_app, concat_app.
Qed.

(** X12: for an element with one of the twelve text tags (h1 to h6, p,
    li, td, span, blockquote, pre), [TraverseAndExtract] prints one line:
    the tag, " :  ", and the data of all the text nodes below the
    element, in document order, whatever the tags of the elements they
    are in (the text of a script below a p is printed too). *)
Theorem TraverseAndExtract_text (n : Node) :
  isElement n = true → oneOf (Data n) textTags = true →
  TraverseAndExtract [n]
  = Data n +:+ " :  "
    +:+ Str.concat
          (map Data (filter (λ c, isText c = true) (descendants n)))
    +:+ Str.nl.
Proof.
  intros Hel Htag. unfold TraverseAndExtract.
  rewrite (NodeName_element n (Data n) Hel eq_refl).
  assert (oneOf (Data n) ignoredTags = false) as Hign.
  { revert Htag. unfold oneOf, textTags, ignoredTags. cbn [existsb].
    repeat match goal with
           | |- context [String.eqb (Data n) ?t] =>
               destruct (String.eqb_spec (Data n) t) as [->|_]; [done|]
           end.
    done. }
  unfold ignoredTags in Hign. unfold textTags in Htag. rewrite Hign, Htag.
  rewrite SelectionText_single. unfold nodeText, descendants.
  rewrite textFrom_subtrees.
  destruct n as [|up fc ns ty d attrs]; [done|].
  unfold isElement in Hel. cbn in Hel. destruct ty; try done.
  unfold Println. cbn [Type_ Data FirstChild String.concat].
  by rewrite !str_app_assoc.
Qed.

Lemma TraverseAndExtract_text_witness :
  TraverseAndExtract
    [element "p" []
       (text "Hello " (element "script" [] (text "x()" Nil)
                         (element "b" [] (text "you" Nil) Nil)))
       Nil]
  = "p" +:+ " :  " +:+ Str.concat ["Hello "; "x()"; "you"] +:+ Str.nl.
Proof.
  apply (TraverseAndExtract_text
           (element "p" []
              (text "Hello " (element "script" [] (text "x()" Nil)
                                (element "b" [] (text "you" Nil) Nil)))
              Nil));
    reflexivity.
Defined.

(** X13: [TraverseAndExtract] prints nothing unless the name of the first
    node of the selection is one of the sixteen tags it has a case for:
    nothing for an empty selection, for a text, comment or document node,
    for a container such as div, and nothing for header, footer, nav,
    aside, comments, script and style, whatever is inside. *)
Theorem TraverseAndExtract_silent (s : Selection) :
  (oneOf (NodeName s) printedTags = false → TraverseAndExtract s = "")
  ∧ (oneOf (NodeName s) ignoredTags = true → TraverseAndExtract s = "")
  ∧ (s = [] → TraverseAndExtract s = "")
  ∧ (∀ n rest,
        s = n :: rest → isElement n = false → Type_ n ≠ DoctypeNode →
        TraverseAndExtract s = "").
Proof.
  assert (oneOf (NodeName s) printedTags = false → TraverseAndExtract s = "")
    as Hsilent.
  { intros H. unfold printedTags, oneOf in H. rewrite existsb_app in H.
    apply orb_false_iff in H as [Htext Hrest]. cbn [existsb] in Hrest.
    rewrite !orb_false_iff in Hrest.
    destruct Hrest as (Ha & Himg & Htable & Hmeta & _).
    unfold TraverseAndExtract. cbn zeta. unfold textTags in Htext.
    unfold oneOf. rewrite Htext, Ha, Himg, Htable, Hmeta.
    by case_match. }
  split; [done|]. split; [|split].
  - intros H. unfold TraverseAndExtract. unfold ignoredTags in H. by rewrite H.
  - by intros ->.
  - intros n rest -> Hel Hdoc. apply Hsilent.
    destruct n as [|up fc ns ty d attrs]; [done|].
    unfold isElement in Hel. cbn in Hel, Hdoc. by destruct ty.
Qed.

Lemma TraverseAndExtract_silent_witness :
  TraverseAndExtract [element "div" [] (text "inside" Nil) Nil] = ""
  ∧ TraverseAndExtract [element "script" [] (text "x()" Nil) Nil] = ""
  ∧ TraverseAndExtract [] = ""
  ∧ TraverseAndExtract [text "loose" Nil] = "".
Proof.
  split; [|split; [|split]].
  - apply (proj1 (TraverseAndExtract_silent
                    [element "div" [] (text "inside" Nil) Nil])).
    reflexivity.
  - apply (proj1 (proj2 (TraverseAndExtract_silent
                           [element "script" [] (text "x()" Nil) Nil]))).
    reflexivity.
  - apply (proj1 (proj2 (proj2 (TraverseAndExtract_silent [])))).
    reflexivity.
  - apply (proj2 (proj2 (proj2 (TraverseAndExtract_silent
                                  [text "loose" Nil])))
             (text "loose" Nil) []); [reflexivity|reflexivity|discriminate].
Defined.

(** X14: for a meta element, [TraverseAndExtract] prints something
    exactly when the element has a name attribute whose value is
    "author" (in lower case), and then it prints "Author:  " and the
    value of the content attribute, empty when there is none. *)
Theorem TraverseAndExtract_meta (n : Node) :
  isElement n = true → Data n = "meta" →
  (TraverseAndExtract [n] ≠ "" ↔ lookupAttr (Attr n) "name" = Some "author")
  ∧ (lookupAttr (Attr n) "name" = Some "author" →
     TraverseAndExtract [n]
     = "Author:  " +:+ default "" (lookupAttr (Attr n) "content") +:+ Str.nl).
Proof.
  intros Hel Htag.
  assert (TraverseAndExtract [n]
          = match lookupAttr (Attr n) "name" with
            | Some name =>
                if String.eqb name "author"
                then "Author:  " +:+ default "" (lookupAttr (Attr n) "content")
                     +:+ Str.nl
                else ""
            | None => ""
            end) as Heq.
  { unfold TraverseAndExtract. rewrite (NodeName_element n "meta" Hel Htag).
    cbn [oneOf existsb String.eqb Ascii.eqb Bool.eqb orb].
    unfold SelectionAttr.
    destruct (lookupAttr (Attr n) "name") as [name|]; [|done].
    cbn [andb]. destruct (String.eqb name "author"); [|done].
    by destruct (lookupAttr (Attr n) "content"). }
  rewrite Heq. split.
  - destruct (lookupAttr (Attr n) "name") as [name|]; [|done].
    destruct (String.eqb_spec name "author") as [Hname|Hne].
    + split; [by rewrite Hname|]. intros _.
      by destruct (lookupAttr (Attr n) "content").
    + split; [done|]. intros [= Hname]. by destruct Hne.
  - by intros ->.
Qed.

Lemma TraverseAndExtract_meta_witness :
  TraverseAndExtract
    [element "meta" [mkAttribute "name" "author"; mkAttribute "content" "Ann"]
       Nil Nil]
  = "Author:  " +:+ "Ann" +:+ Str.nl.
Proof.
  apply (proj2 (TraverseAndExtract_meta
                  (element "meta"
                     [mkAttribute "name" "author"; mkAttribute "content" "Ann"]
                     Nil Nil)
                  eq_refl eq_refl)).
  reflexivity.
Defined.

End StoreMore.
